(** * Diagnosys: CSV normalizer, fetch wrapper and search filter of script.js

    Shallow embedding of [src/script.js]: [parseCSV], [fetchData],
    [fetchAndLoadData], [filterData], the table renderers, the polling
    timer ([startPolling], [stopPolling]), [switchScreen], the search
    handlers and the event listeners, as a step function on the page state.

    Strings are Rocq [string]s whose 8-bit characters are read as the
    Latin-1 code units U+0000..U+00FF of a JavaScript string.  On that range
    the JavaScript primitives used by the code are modelled exactly:
    - [String.prototype.trim] and the regex class [\s] strip
      TAB, LF, VT, FF, CR, SPACE and NO-BREAK SPACE (U+00A0);
    - [String.prototype.toLowerCase] maps A-Z and U+00C0..U+00DE
      (except U+00D7) up by 32;
    - [String.prototype.split] with a one-character separator. *)

From Stdlib Require Import String Ascii List Bool Arith Lia.
Import ListNotations.
Open Scope string_scope.
Open Scope list_scope.

(** ** JavaScript string primitives *)

Module JS.

(** [\s] / [trim] white space, restricted to Latin-1. *)
Definition is_ws (c : ascii) : bool :=
  let n := nat_of_ascii c in
  ((9 <=? n) && (n <=? 13) || (n =? 32) || (n =? 160))%nat.

(** [toLowerCase] on one Latin-1 code unit. *)
Definition lower_char (c : ascii) : ascii :=
  let n := nat_of_ascii c in
  if (((65 <=? n) && (n <=? 90)) || ((192 <=? n) && (n <=? 222) && negb (n =? 215)))%nat
  then ascii_of_nat (n + 32) else c.

Fixpoint toLowerCase (s : string) : string :=
  match s with
  | EmptyString => EmptyString
  | String c s' => String (lower_char c) (toLowerCase s')
  end.

Fixpoint trim_start (s : string) : string :=
  match s with
  | EmptyString => EmptyString
  | String c s' => if is_ws c then trim_start s' else s
  end.

Fixpoint string_rev (s : string) : string :=
  match s with
  | EmptyString => EmptyString
  | String c s' => string_rev s' ++ String c EmptyString
  end.

Definition trim_end (s : string) : string := string_rev (trim_start (string_rev s)).

Definition trim (s : string) : string := trim_end (trim_start s).

(** [s.replace(re, '')] with a global regex matching single characters
    (or runs of them) of a class: every character of the class is removed. *)
Fixpoint remove_class (p : ascii -> bool) (s : string) : string :=
  match s with
  | EmptyString => EmptyString
  | String c s' => if p c then remove_class p s' else String c (remove_class p s')
  end.

(** the class [[^a-z0-9]] *)
Definition not_az09 (c : ascii) : bool :=
  let n := nat_of_ascii c in
  negb (((97 <=? n) && (n <=? 122)) || ((48 <=? n) && (n <=? 57)))%nat.

(** [s.split(sep)] for a one-character separator: never empty. *)
Fixpoint split (sep : ascii) (s : string) : list string :=
  match s with
  | EmptyString => [EmptyString]
  | String c s' =>
      let parts := split sep s' in
      if Ascii.eqb c sep then EmptyString :: parts
      else match parts with
           | p :: ps => String c p :: ps
           | [] => [String c EmptyString]
           end
  end.

(** [s.startsWith(t)] *)
Fixpoint startsWith (s t : string) {struct t} : bool :=
  match t with
  | EmptyString => true
  | String c t' =>
      match s with
      | String d s' => Ascii.eqb c d && startsWith s' t'
      | EmptyString => false
      end
  end.

(** [s.includes(t)]: [t] occurs at some index of [s]. *)
Fixpoint includes (s t : string) : bool :=
  startsWith s t ||
  match s with
  | EmptyString => false
  | String _ s' => includes s' t
  end.

(** [arr.join('')] *)
Fixpoint join_empty (l : list string) : string :=
  match l with
  | [] => EmptyString
  | x :: xs => x ++ join_empty xs
  end.

(** JavaScript values met by [parseCSV]: strings, the built-in functions
    and the [__proto__] accessor result found on [Object.prototype]. *)
Inductive value :=
| VStr (s : string)
| VFun (name : string)
| VObjectPrototype.

(** [ToBoolean] of a possibly [undefined] value *)
Definition truthy (v : option value) : bool :=
  match v with
  | None => false
  | Some (VStr s) => negb (s =? "")
  | Some (VFun _) => true
  | Some VObjectPrototype => true
  end.

(** [ToPropertyKey]: built-in functions print as native code. *)
Definition to_key (v : value) : string :=
  match v with
  | VStr s => s
  | VFun n => "function " ++ n ++ "() { [native code] }"
  | VObjectPrototype => "[object Object]"
  end.

(** Properties inherited from [Object.prototype] by an object literal. *)
Definition object_prototype_get (k : string) : option value :=
  if k =? "constructor" then Some (VFun "Object")
  else if k =? "__proto__" then Some VObjectPrototype
  else if existsb (String.eqb k)
            ["__defineGetter__"; "__defineSetter__"; "hasOwnProperty";
             "__lookupGetter__"; "__lookupSetter__"; "isPrototypeOf";
             "propertyIsEnumerable"; "toString"; "valueOf"; "toLocaleString"]
  then Some (VFun k)
  else None.

End JS.

Import JS.

(** ** Records: plain JavaScript objects with string values

    An object created by [{}] and filled by [obj[key] = value] is kept as
    the list of its own properties in creation order: assigning an existing
    key updates it in place, a new key is appended.  (JavaScript enumerates
    integer-like keys first; no statement below depends on the order.) *)
Definition record := list (string * string).

Fixpoint obj_set (o : record) (k v : string) : record :=
  match o with
  | [] => [(k, v)]
  | (k', v') :: o' => if String.eqb k' k then (k, v) :: o' else (k', v') :: obj_set o' k v
  end.

Fixpoint obj_get (o : record) (k : string) : option string :=
  match o with
  | [] => None
  | (k', v') :: o' => if String.eqb k' k then Some v' else obj_get o' k
  end.

(** [Object.values(o)] *)
Definition object_values (o : record) : list string := map snd o.

(** ** [parseCSV] *)

(** [header.trim().toLowerCase().replace(/\s+/g, '').replace(/[^a-z0-9]/g, '')] *)
Definition canon (h : string) : string :=
  remove_class not_az09 (remove_class is_ws (toLowerCase (trim h))).

(** [headerMap[h]] on the object literal [headerMap]: own properties, then
    those of [Object.prototype]. *)
Definition headerMap_get (h : string) : option value :=
  if h =? "name" then Some (VStr "name")
  else if h =? "age" then Some (VStr "age")
  else if h =? "gender" then Some (VStr "gender")
  else if h =? "dateofbirth" then Some (VStr "dateofbirth")
  else if h =? "contact" then Some (VStr "contact")
  else if h =? "systolicbp" then Some (VStr "systolic")
  else if h =? "diastolicbp" then Some (VStr "diastolic")
  else if h =? "spo2" then Some (VStr "spo2")
  else if h =? "heartrate" then Some (VStr "heartrate")
  else if h =? "temperature" then Some (VStr "temperature")
  else if h =? "results" then Some (VStr "results")
  else if h =? "doctor" then Some (VStr "doctor")
  else object_prototype_get h.

(** the twelve own keys of [headerMap] *)
Definition headerMap_keys : list string :=
  ["name"; "age"; "gender"; "dateofbirth"; "contact"; "systolicbp";
   "diastolicbp"; "spo2"; "heartrate"; "temperature"; "results"; "doctor"].

(** [headerMap[h] || h] *)
Definition normalize_header (h : string) : value :=
  let r := headerMap_get h in
  if truthy r then match r with Some v => v | None => VStr h end else VStr h.

(** the property key a raw header cell ends up as in the records *)
Definition field_name (raw : string) : string := to_key (normalize_header (canon raw)).

(** [line.trim() !== ''] *)
Definition nonblank (l : string) : bool := negb (trim l =? "").

(** [csvText.split('\n').filter(line => line.trim() !== '')] *)
Definition lines_of (csvText : string) : list string :=
  filter nonblank (split "010"%char csvText).

(** [cells.map(canonicalize).join('')] *)
Definition fingerprint (cells : list string) : string := join_empty (map canon cells).

(** [values[index] ? values[index].trim() : ''] *)
Definition cell (values : list string) (index : nat) : string :=
  match nth_error values index with
  | Some v => if v =? "" then "" else trim v
  | None => ""
  end.

(** [normalizedHeaders.forEach((header, index) => ...)]: returns the object
    and the flag [isRowEmpty]. *)
Fixpoint fill (hs : list value) (index : nat) (values : list string)
         (obj : record) (isRowEmpty : bool) : record * bool :=
  match hs with
  | [] => (obj, isRowEmpty)
  | header :: hs' =>
      let v := cell values index in
      fill hs' (S index) values (obj_set obj (to_key header) v)
           (if negb (v =? "") then false else isRowEmpty)
  end.

(** [values.length < normalizedHeaders.length * 0.7].  The double product
    [n * 0.7] is at most the exact [7n/10] and, for [n < 2^49], no whole
    number lies between them, so the comparison is [10 * length < 7 * n]. *)
Definition too_short (values : list string) (nheaders : nat) : bool :=
  (10 * length values <? 7 * nheaders)%nat.

(** one iteration of the [for] loop over the data lines: [None] is
    [continue] or a row not pushed *)
Definition process_row (normalizedHeaders : list value) (headerFingerprint : string)
           (line : string) : option record :=
  let values := split ","%char line in
  if too_short values (length normalizedHeaders)
     || forallb (fun v => trim v =? "") values then None
  else if fingerprint values =? headerFingerprint then None
  else let '(obj, isRowEmpty) := fill normalizedHeaders 0 values [] true in
       if isRowEmpty then None else Some obj.

Fixpoint loop (nh : list value) (hfp : string) (rows : list string) (data : list record)
  : list record :=
  match rows with
  | [] => data
  | line :: rest =>
      loop nh hfp rest (match process_row nh hfp line with
                        | Some obj => data ++ [obj]
                        | None => data
                        end)
  end.

Definition parse_lines (lines : list string) : list record :=
  if (length lines <=? 1)%nat then []
  else match lines with
       | [] => []
       | first :: rest =>
           let rawHeaders := split ","%char first in
           let headers := map canon rawHeaders in
           let normalizedHeaders := map normalize_header headers in
           let headerFingerprint := fingerprint rawHeaders in
           loop normalizedHeaders headerFingerprint rest []
       end.

Definition parseCSV (csvText : string) : list record := parse_lines (lines_of csvText).

(** header keys used by the records of a parse whose header line is [first] *)
Definition header_keys (first : string) : list string :=
  map field_name (split ","%char first).

Example ex_scenario1 :
  parseCSV "Name,Age
Alice,30
Bob,40" = [[("name", "Alice"); ("age", "30")]; [("name", "Bob"); ("age", "40")]].
Proof. reflexivity. Qed.

(** position of the last occurrence of key [k] in [ks], counting from [i]:
    the header position whose assignment survives in the object *)
Fixpoint last_index_from (k : string) (ks : list string) (i : nat) : option nat :=
  match ks with
  | [] => None
  | x :: xs =>
      match last_index_from k xs (S i) with
      | Some j => Some j
      | None => if String.eqb x k then Some i else None
      end
  end.

Definition last_index (k : string) (ks : list string) : option nat := last_index_from k ks 0.

(** characters left by [canon]: the class [[a-z0-9]] *)
Fixpoint all_az09 (s : string) : bool :=
  match s with
  | EmptyString => true
  | String c s' => negb (not_az09 c) && all_az09 s'
  end.

(** ** [fetchData] and [fetchAndLoadData]

    The network is abstracted into the outcome of [fetch(cacheBusterUrl)]:
    a rejected promise, or a response with its [ok] flag, status and the
    result of [response.text()] ([None] when that promise rejects). *)
Inductive fetch_outcome :=
| NetworkError
| Response (ok : bool) (status : nat) (body : option string).

(** observable effects: a call of the normalizer on a text, a console error *)
Inductive event :=
| EvParseCSV (csvText : string)
| EvConsoleError.

Definition fetchData (o : fetch_outcome) : list event * list record :=
  match o with
  | NetworkError => ([EvConsoleError], [])
  | Response ok _ body =>
      if negb ok then ([EvConsoleError], [])
      else match body with
           | None => ([EvConsoleError], [])
           | Some csvText => ([EvParseCSV csvText], parseCSV csvText)
           end
  end.

(** the module-level [let] bindings read and written by [fetchAndLoadData] *)
Record app_state := mk_state {
  doctorsData : list record;
  databaseData : list record
}.

(** [fetchAndLoadData] on the outcomes of the doctor and patient fetches;
    the redraw that follows the assignments does not touch the state. *)
Definition fetchAndLoadData (st : app_state) (od op : fetch_outcome)
  : list event * app_state :=
  let '(ed, doctorsResult) := fetchData od in
  let '(ep, databaseResult) := fetchData op in
  (ed ++ ep, mk_state doctorsResult databaseResult).

(** a failed fetch: rejected, non-OK status, or unreadable body *)
Definition fetch_failed (o : fetch_outcome) : Prop :=
  match o with
  | NetworkError => True
  | Response ok _ body => ok = false \/ body = None
  end.

(** ** [filterData] *)
Definition filterData (query : string) (data : list record) : list record :=
  let lowerCaseQuery := toLowerCase query in
  filter (fun item =>
            existsb (fun value => includes (toLowerCase value) lowerCaseQuery)
                    (object_values item))
         data.

(** ** Screens, rendering, polling and search handlers

    The page holds the three screen elements looked up by [screens]
    ([home-screen], [doctors-profile-screen], [database-access-screen]),
    each carrying the class [screen], in this document order, and the two
    table bodies and search inputs; no other element has the classes
    [screen active].  A table body is kept as a placeholder row (one cell
    with its [colspan] and text) or as the list of its rows' cell texts. *)

Inductive screen := Home | Doctors | Database.

(** [screens[s].id] *)
Definition screen_id (s : screen) : string :=
  match s with
  | Home => "home-screen"
  | Doctors => "doctors-profile-screen"
  | Database => "database-access-screen"
  end.

(** [s.replace(pat, rep)] with a non-empty string pattern: first occurrence *)
Fixpoint str_drop (n : nat) (s : string) : string :=
  match n, s with
  | O, _ => s
  | S n', String _ s' => str_drop n' s'
  | S _, EmptyString => EmptyString
  end.

Fixpoint replace_first (s pat rep : string) : string :=
  if startsWith s pat then rep ++ str_drop (String.length pat) s
  else match s with
       | EmptyString => EmptyString
       | String c s' => String c (replace_first s' pat rep)
       end.

(** the [active] class of each screen element *)
Record classes := mk_classes {
  home_active : bool;
  doctors_active : bool;
  database_active : bool
}.

Definition is_active (c : classes) (s : screen) : bool :=
  match s with
  | Home => home_active c
  | Doctors => doctors_active c
  | Database => database_active c
  end.

(** [document.querySelector('.screen.active')] *)
Definition query_active (c : classes) : option screen :=
  if home_active c then Some Home
  else if doctors_active c then Some Doctors
  else if database_active c then Some Database
  else None.

Inductive body :=
| Message (colspan : nat) (text : string)
| Rows (rows : list (list string)).

(** [setInterval] / [clearInterval] and [dataIntervalId]: the running
    intervals and the next id the browser hands out (ids are positive). *)
Record timers := mk_timers {
  dataIntervalId : option nat;
  intervals : list nat;
  next_id : nat
}.

Record ui := mk_ui {
  data : app_state;
  screen_classes : classes;
  doctorTableBody : body;
  databaseTableBody : body;
  doctorSearchInput : string;
  databaseSearchInput : string;
  tm : timers
}.

(** [x.f || ''] for a string-valued property [f] *)
Definition field_or_empty (r : record) (k : string) : string :=
  match obj_get r k with
  | Some v => if v =? "" then "" else v
  | None => ""
  end.

Definition doctor_fields : list string := ["name"; "contact"; "schedule"; "availability"].

Definition database_fields : list string :=
  ["name"; "age"; "gender"; "dateofbirth"; "contact"; "systolic"; "diastolic";
   "spo2"; "heartrate"; "temperature"; "results"; "doctor"].

Definition renderDoctorsTable (d : list record) : body :=
  if (length d =? 0)%nat
  then Message 4 "No doctor data found."
  else Rows (map (fun doctor => map (field_or_empty doctor) doctor_fields) d).

Definition renderDatabaseTable (d : list record) : body :=
  if (length d =? 0)%nat
  then Message 13 "No patient records found."
  else Rows (map (fun r => map (field_or_empty r) database_fields) d).

(** [clearInterval(id)] *)
Definition clearInterval (t : timers) (id : nat) : timers :=
  mk_timers (dataIntervalId t) (filter (fun i => negb (i =? id)%nat) (intervals t)) (next_id t).

(** [if (dataIntervalId)]: [null] and [0] are falsy *)
Definition interval_truthy (o : option nat) : option nat :=
  match o with
  | Some n => if (n =? 0)%nat then None else Some n
  | None => None
  end.

Definition startPolling (t : timers) : timers :=
  let t1 := match interval_truthy (dataIntervalId t) with
            | Some n => clearInterval t n
            | None => t
            end in
  let id := next_id t1 in
  mk_timers (Some id) (intervals t1 ++ [id]) (S id).

Definition stopPolling (t : timers) : timers :=
  match interval_truthy (dataIntervalId t) with
  | Some n => let t1 := clearInterval t n in mk_timers None (intervals t1) (next_id t1)
  | None => t
  end.

Definition set_tm (u : ui) (t : timers) : ui :=
  mk_ui (data u) (screen_classes u) (doctorTableBody u) (databaseTableBody u)
        (doctorSearchInput u) (databaseSearchInput u) t.

Definition set_doctorBody (u : ui) (b : body) : ui :=
  mk_ui (data u) (screen_classes u) b (databaseTableBody u)
        (doctorSearchInput u) (databaseSearchInput u) (tm u).

Definition set_databaseBody (u : ui) (b : body) : ui :=
  mk_ui (data u) (screen_classes u) (doctorTableBody u) b
        (doctorSearchInput u) (databaseSearchInput u) (tm u).

Definition set_doctorSearch (u : ui) (v : string) : ui :=
  mk_ui (data u) (screen_classes u) (doctorTableBody u) (databaseTableBody u)
        v (databaseSearchInput u) (tm u).

Definition set_databaseSearch (u : ui) (v : string) : ui :=
  mk_ui (data u) (screen_classes u) (doctorTableBody u) (databaseTableBody u)
        (doctorSearchInput u) v (tm u).

Definition set_data (u : ui) (st : app_state) : ui :=
  mk_ui st (screen_classes u) (doctorTableBody u) (databaseTableBody u)
        (doctorSearchInput u) (databaseSearchInput u) (tm u).

Definition set_classes (u : ui) (c : classes) : ui :=
  mk_ui (data u) c (doctorTableBody u) (databaseTableBody u)
        (doctorSearchInput u) (databaseSearchInput u) (tm u).

Definition switchScreen (target : screen) (u : ui) : ui :=
  let u1 := set_classes u (mk_classes (match target with Home => true | _ => false end)
                                      (match target with Doctors => true | _ => false end)
                                      (match target with Database => true | _ => false end)) in
  let u2 := match target with
            | Home => set_tm u1 (stopPolling (tm u1))
            | _ => set_tm u1 (startPolling (tm u1))
            end in
  match target with
  | Doctors =>
      let u3 := set_doctorSearch u2 "" in
      set_doctorBody u3 (renderDoctorsTable (doctorsData (data u3)))
  | Database =>
      let u3 := set_databaseSearch u2 "" in
      set_databaseBody u3 (renderDatabaseTable (databaseData (data u3)))
  | Home => u2
  end.

(** [handleDoctorSearch] after the input element took the value [v] *)
Definition handleDoctorSearch (u : ui) (v : string) : ui :=
  let u1 := set_doctorSearch u v in
  let query := trim (doctorSearchInput u1) in
  set_doctorBody u1 (renderDoctorsTable (filterData query (doctorsData (data u1)))).

Definition handleDatabaseSearch (u : ui) (v : string) : ui :=
  let u1 := set_databaseSearch u v in
  let query := trim (databaseSearchInput u1) in
  set_databaseBody u1 (renderDatabaseTable (filterData query (databaseData (data u1)))).

(** [fetchAndLoadData] up to its [await]: the loading placeholders *)
Definition load_start (u : ui) : ui :=
  if ((length (doctorsData (data u)) =? 0) && (length (databaseData (data u)) =? 0))%nat
  then set_databaseBody (set_doctorBody u (Message 4 "Loading doctor data..."))
                        (Message 13 "Loading patient data...")
  else u.

(** [fetchAndLoadData] after [Promise.all] resolves: assignment and redraw *)
Definition load_finish (u : ui) (od op : fetch_outcome) : ui :=
  let u1 := set_data u (snd (fetchAndLoadData (data u) od op)) in
  let activeScreen :=
    match query_active (screen_classes u1) with
    | Some s => replace_first (screen_id s) "-screen" ""
    | None => "home"
    end in
  if activeScreen =? "doctors" then set_doctorBody u1 (renderDoctorsTable (doctorsData (data u1)))
  else if activeScreen =? "database"
  then set_databaseBody u1 (renderDatabaseTable (databaseData (data u1)))
  else if activeScreen =? "home" then switchScreen Home u1
  else u1.

(** the events the page reacts to *)
Inductive ui_event :=
| ClickDoctorsProfile
| ClickDatabaseAccess
| ClickBackDoctors
| ClickBackDatabase
| DoctorSearchInput (v : string)
| DatabaseSearchInput (v : string)
| LoadStart
| LoadFinish (od op : fetch_outcome).

Definition ui_step (u : ui) (e : ui_event) : ui :=
  match e with
  | ClickDoctorsProfile => switchScreen Doctors u
  | ClickDatabaseAccess => switchScreen Database u
  | ClickBackDoctors | ClickBackDatabase => switchScreen Home u
  | DoctorSearchInput v => handleDoctorSearch u v
  | DatabaseSearchInput v => handleDatabaseSearch u v
  | LoadStart => load_start u
  | LoadFinish od op => load_finish u od op
  end.

Definition ui_run (u : ui) (es : list ui_event) : ui := fold_left ui_step es u.

(** the page before the script runs: no data, no interval; the markup's
    classes, bodies and inputs are arbitrary *)
Definition page_init (c : classes) (b1 b2 : body) (q1 q2 : string) (n : nat) : ui :=
  mk_ui (mk_state [] []) c b1 b2 q1 q2 (mk_timers None [] (S n)).

(** [window.onload]: [switchScreen('home')], then [fetchAndLoadData()] *)
Definition onload (u : ui) : ui := load_start (switchScreen Home u).

(** CRLF line ends: every [\n] of [s] preceded by a carriage return *)
Fixpoint crlf (s : string) : string :=
  match s with
  | EmptyString => EmptyString
  | String c s' =>
      if Ascii.eqb c "010"%char then String "013"%char (String "010"%char (crlf s'))
      else String c (crlf s')
  end.

(** ** Lemmas *)

Lemma startsWith_spec (s t : string) :
  startsWith s t = true <-> exists suf, s = (t ++ suf)%string.
Proof.
  revert s; induction t as [|c t IH]; intros s; simpl.
  - split; [intros _; now exists s | reflexivity].
  - destruct s as [|d s].
    + split; [discriminate | intros [suf H]; discriminate].
    + rewrite andb_true_iff, IH, Ascii.eqb_eq. split.
      * intros [-> [suf ->]]. now exists suf.
      * intros [suf H]. injection H as -> ->. split; [reflexivity | now exists suf].
Qed.

Lemma includes_spec (s t : string) :
  includes s t = true <-> exists pre suf, s = (pre ++ t ++ suf)%string.
Proof.
  induction s as [|c s IH]; simpl; rewrite orb_true_iff, startsWith_spec.
  - split.
    + intros [[suf H] | H]; [exists EmptyString, suf; exact H | discriminate].
    + intros [pre [suf H]]. left. destruct pre; [now exists suf | discriminate].
  - rewrite IH. split.
    + intros [[suf H] | [pre [suf H]]].
      * now exists EmptyString, suf.
      * exists (String c pre), suf. now rewrite H.
    + intros [[|c' pre] [suf H]].
      * left. now exists suf.
      * right. injection H as _ H. now exists pre, suf.
Qed.

Lemma obj_get_set (o : record) (k v k' : string) :
  obj_get (obj_set o k v) k' = if String.eqb k k' then Some v else obj_get o k'.
Proof.
  induction o as [|[k0 v0] o IH]; simpl.
  - reflexivity.
  - destruct (String.eqb k0 k) eqn:E.
    + apply String.eqb_eq in E; subst k0. simpl. now destruct (String.eqb k k').
    + simpl. rewrite IH. destruct (String.eqb k0 k') eqn:E'; [|reflexivity].
      apply String.eqb_eq in E'; subst k0.
      destruct (String.eqb k k') eqn:E''; [|reflexivity].
      apply String.eqb_eq in E''; subst. now rewrite String.eqb_refl in E.
Qed.

Lemma fill_get (hs : list value) (index : nat) (values : list string)
      (obj : record) (e : bool) (k : string) :
  obj_get (fst (fill hs index values obj e)) k =
  match last_index_from k (map to_key hs) index with
  | Some j => Some (cell values j)
  | None => obj_get obj k
  end.
Proof.
  revert index obj e; induction hs as [|h hs IH]; intros index obj e; simpl.
  - reflexivity.
  - rewrite IH, obj_get_set.
    destruct (last_index_from k (map to_key hs) (S index)); [reflexivity|].
    now destruct (String.eqb (to_key h) k).
Qed.

Lemma last_index_from_In (k : string) (ks : list string) (i : nat) :
  In k ks -> last_index_from k ks i <> None.
Proof.
  revert i; induction ks as [|x ks IH]; intros i Hin; simpl; [destruct Hin|].
  destruct (last_index_from k ks (S i)) eqn:E; [discriminate|].
  destruct Hin as [-> | Hin].
  - now rewrite String.eqb_refl.
  - exfalso. exact (IH (S i) Hin E).
Qed.

Lemma loop_app (nh : list value) (hfp : string) (xs ys : list string) (d : list record) :
  loop nh hfp (xs ++ ys) d = loop nh hfp ys (loop nh hfp xs d).
Proof.
  revert d; induction xs as [|x xs IH]; intros d; simpl; [reflexivity | apply IH].
Qed.

Lemma loop_skip (nh : list value) (hfp : string) (pre post : list string)
      (line : string) (d : list record) :
  process_row nh hfp line = None ->
  loop nh hfp (pre ++ line :: post) d = loop nh hfp (pre ++ post) d.
Proof.
  intros H. rewrite !loop_app. simpl. now rewrite H.
Qed.

Lemma loop_length (nh : list value) (hfp : string) (rows : list string) (d : list record) :
  length (loop nh hfp rows d) <= length d + length rows.
Proof.
  revert d; induction rows as [|l rows IH]; intros d; simpl; [lia|].
  destruct (process_row nh hfp l).
  - specialize (IH (d ++ [r])). rewrite length_app in IH. simpl in IH. lia.
  - specialize (IH d). lia.
Qed.

Lemma loop_In (nh : list value) (hfp : string) (rows : list string) (d : list record)
      (r : record) :
  In r (loop nh hfp rows d) ->
  In r d \/ exists line, In line rows /\ process_row nh hfp line = Some r.
Proof.
  revert d; induction rows as [|l rows IH]; intros d Hin; simpl in *; [now left|].
  destruct (process_row nh hfp l) as [o|] eqn:E.
  - destruct (IH _ Hin) as [H | [line [H1 H2]]].
    + apply in_app_or in H. destruct H as [H | [H | []]]; [now left|].
      subst o. right. exists l. now split; [left|].
    + right. exists line. now split; [right|].
  - destruct (IH _ Hin) as [H | [line [H1 H2]]]; [now left|].
    right. exists line. now split; [right|].
Qed.

Definition header_values (first : string) : list value :=
  map normalize_header (map canon (split ","%char first)).

Lemma parse_lines_cons (first : string) (rows : list string) :
  parse_lines (first :: rows) =
  loop (header_values first) (fingerprint (split ","%char first)) rows [].
Proof.
  unfold parse_lines, header_values. destruct rows; reflexivity.
Qed.

Lemma header_keys_values (first : string) :
  header_keys first = map to_key (header_values first).
Proof.
  unfold header_keys, header_values, field_name. now rewrite !map_map.
Qed.

Lemma process_row_fields (nh : list value) (hfp line : string) (r : record) :
  process_row nh hfp line = Some r ->
  forall k, obj_get r k =
            option_map (cell (split ","%char line)) (last_index k (map to_key nh)).
Proof.
  unfold process_row. intros H k.
  destruct (_ || _); [discriminate|].
  destruct (fingerprint _ =? hfp); [discriminate|].
  destruct (fill nh 0 (split ","%char line) [] true) as [obj e] eqn:E.
  destruct e; [discriminate|]. injection H as <-.
  change obj with (fst (obj, false)). rewrite <- E, fill_get.
  unfold last_index. now destruct (last_index_from k (map to_key nh) 0).
Qed.

(** every record of the output comes from a data line, and under each key
    holds the cell of the last header position carrying that key *)
Lemma parseCSV_record_fields (s : string) (r : record) :
  In r (parseCSV s) ->
  exists first rows line,
    lines_of s = first :: rows /\ In line rows /\
    forall k, obj_get r k =
              option_map (cell (split ","%char line)) (last_index k (header_keys first)).
Proof.
  unfold parseCSV. destruct (lines_of s) as [|first rows]; [intros []|].
  rewrite parse_lines_cons. intros Hin.
  destruct (loop_In _ _ _ _ _ Hin) as [[] | [line [H1 H2]]].
  exists first, rows, line. split; [reflexivity|]. split; [exact H1|].
  rewrite header_keys_values. exact (process_row_fields _ _ _ _ H2).
Qed.

Lemma canon_all_az09 (h : string) : all_az09 (canon h) = true.
Proof.
  unfold canon. generalize (remove_class is_ws (toLowerCase (trim h))) as t.
  induction t as [|c t IH]; simpl; [reflexivity|].
  destruct (not_az09 c) eqn:E; simpl; [exact IH | now rewrite E, IH].
Qed.

Lemma includes_empty (s : string) : includes s "" = true.
Proof. destruct s; reflexivity. Qed.

Lemma field_name_key_present (first : string) (rows : list string) (s raw : string)
      (r : record) :
  lines_of s = first :: rows -> In raw (split ","%char first) -> In r (parseCSV s) ->
  obj_get r (field_name raw) <> None.
Proof.
  intros Hl Hraw Hr.
  destruct (parseCSV_record_fields s r Hr) as [first' [rows' [line [Hl' [_ Hk]]]]].
  rewrite Hl in Hl'. injection Hl' as <- <-.
  rewrite Hk. unfold last_index.
  assert (Hin : In (field_name raw) (header_keys first)) by (now apply in_map).
  pose proof (last_index_from_In _ _ 0 Hin) as H.
  destruct (last_index_from _ _ 0); [discriminate | contradiction].
Qed.

(** Header cells whose canonical form is neither an own key of [headerMap]
    nor [constructor] keep their canonical form as field name. *)
Lemma field_name_passthrough (raw : string) :
  ~ In (canon raw) headerMap_keys -> canon raw <> "constructor" ->
  field_name raw = canon raw.
Proof.
  intros Hn Hc. pose proof (canon_all_az09 raw) as Haz.
  unfold field_name, normalize_header, headerMap_get.
  generalize dependent (canon raw). intros h Hn Hc Haz.
  repeat match goal with
         | |- context [String.eqb h ?k] =>
             destruct (String.eqb_spec h k) as [->|_];
             [exfalso; apply Hn; simpl; tauto|]
         end.
  unfold object_prototype_get.
  destruct (String.eqb_spec h "constructor") as [->|_]; [contradiction|].
  destruct (String.eqb_spec h "__proto__") as [->|_]; [discriminate|].
  destruct (existsb (String.eqb h) _) eqn:E; [|reflexivity].
  apply existsb_exists in E. destruct E as [x [Hx Heq]].
  apply String.eqb_eq in Heq. subst h.
  simpl in Hx. repeat destruct Hx as [<- | Hx]; try discriminate; contradiction.
Qed.

(** ** Claims *)

(** C1 (as stated, refuted): a failed doctor fetch does not keep the
    previously loaded doctor dataset; [fetchAndLoadData] replaces it by [[]]. *)
Lemma C1_failed_fetch_discards_previous :
  let st := mk_state [[("name", "Alice")]] [[("name", "Bob")]] in
  doctorsData (snd (fetchAndLoadData st NetworkError NetworkError)) <> doctorsData st.
Proof. simpl. discriminate. Qed.

(** C1 (amended): when the fetch of a dataset fails (rejected request,
    non-OK status or unreadable body), [parseCSV] is not called on that
    response and the dataset is set to the empty sequence. *)
Theorem fetch_failure_empties_dataset (st : app_state) (od op : fetch_outcome) :
  (fetch_failed od ->
   (forall t, ~ In (EvParseCSV t) (fst (fetchData od))) /\
   doctorsData (snd (fetchAndLoadData st od op)) = []) /\
  (fetch_failed op ->
   (forall t, ~ In (EvParseCSV t) (fst (fetchData op))) /\
   databaseData (snd (fetchAndLoadData st od op)) = []).
Proof.
  assert (Hf : forall o, fetch_failed o ->
                         fetchData o = ([EvConsoleError], [])).
  { intros [|ok st' body] H; simpl in *; [reflexivity|].
    destruct H as [-> | ->]; [reflexivity | now destruct ok]. }
  unfold fetchAndLoadData. split; intros H; rewrite (Hf _ H).
  - split; [intros t [Ht | []]; discriminate|].
    now destruct (fetchData op).
  - split; [intros t [Ht | []]; discriminate|].
    now destruct (fetchData od).
Qed.

Lemma fetch_failure_empties_dataset_witness :
  fetch_failed (Response false 404 (Some "Name
Alice")) /\
  (forall t, ~ In (EvParseCSV t) (fst (fetchData (Response false 404 (Some "Name
Alice"))))) /\
  doctorsData (snd (fetchAndLoadData (mk_state [[("name", "Alice")]] [])
                      (Response false 404 (Some "Name
Alice")) NetworkError)) = [].
Proof.
  assert (H : fetch_failed (Response false 404 (Some "Name
Alice"))) by (simpl; now left).
  split; [exact H|].
  exact (proj1 (fetch_failure_empties_dataset (mk_state [[("name", "Alice")]] [])
                  (Response false 404 (Some "Name
Alice")) NetworkError) H).
Defined.

(** C2 (as stated, refuted): with the repeated header [a,a] the record of
    the row [x,y] holds ["y"] under the key of position 0, not the trimmed
    cell 0 (["x"]). *)
Lemma C2_duplicate_header_counterexample :
  exists r, parseCSV "a,a
x,y" = [r] /\
            obj_get r (nth 0 (header_keys "a,a") "") <> Some (cell (split ","%char "x,y") 0).
Proof.
  exists [("a", "y")]. split; [reflexivity|]. vm_compute. discriminate.
Qed.

(** C2 (amended): every record of [parseCSV] comes from a data line; it has
    a value for the key of every header position, and under each key it
    holds the trimmed cell at the last header position carrying that key
    (the empty string when the row has no cell there). *)
Theorem parseCSV_record_all_positions (s : string) (r : record) :
  In r (parseCSV s) ->
  exists first rows line,
    lines_of s = first :: rows /\ In line rows /\
    (forall i k, nth_error (header_keys first) i = Some k -> obj_get r k <> None) /\
    (forall k, obj_get r k =
               option_map (cell (split ","%char line)) (last_index k (header_keys first))).
Proof.
  intros Hr.
  destruct (parseCSV_record_fields s r Hr) as [first [rows [line [Hl [Hin Hk]]]]].
  exists first, rows, line. repeat split; [exact Hl | exact Hin | | exact Hk].
  intros i k Hi. rewrite Hk. unfold last_index.
  pose proof (last_index_from_In k _ 0 (nth_error_In _ _ Hi)) as H.
  destruct (last_index_from _ _ 0); [discriminate | contradiction].
Qed.

Lemma parseCSV_record_all_positions_witness :
  In [("name", "Alice"); ("age", "30")] (parseCSV "Name,Age
Alice,30") /\
  exists first rows line,
    lines_of "Name,Age
Alice,30" = first :: rows /\ In line rows /\
    (forall i k, nth_error (header_keys first) i = Some k ->
                 obj_get [("name", "Alice"); ("age", "30")] k <> None) /\
    (forall k, obj_get [("name", "Alice"); ("age", "30")] k =
               option_map (cell (split ","%char line)) (last_index k (header_keys first))).
Proof.
  assert (H : In [("name", "Alice"); ("age", "30")] (parseCSV "Name,Age
Alice,30")) by (vm_compute; now left).
  split; [exact H | exact (parseCSV_record_all_positions _ _ H)].
Defined.

(** C3: a data line whose canonical fingerprint equals the header's gives no
    record: removing it leaves the output unchanged; the input
    ["Name,Age\nName,Age\nAlice,30"] gives exactly one record. *)
Theorem parseCSV_skips_repeated_header (s first line : string) (pre post : list string) :
  (lines_of s = first :: pre ++ line :: post ->
   fingerprint (split ","%char line) = fingerprint (split ","%char first) ->
   parseCSV s = parse_lines (first :: pre ++ post)) /\
  length (parseCSV "Name,Age
Name,Age
Alice,30") = 1.
Proof.
  split; [|reflexivity].
  intros Hl Hf. unfold parseCSV. rewrite Hl, !parse_lines_cons.
  apply loop_skip. unfold process_row.
  destruct (_ || _); [reflexivity|].
  now rewrite Hf, String.eqb_refl.
Qed.

Lemma parseCSV_skips_repeated_header_witness :
  lines_of "Name,Age
Name,Age
Alice,30" = "Name,Age" :: [] ++ "Name,Age" :: ["Alice,30"] /\
  fingerprint (split ","%char "Name,Age") = fingerprint (split ","%char "Name,Age") /\
  parseCSV "Name,Age
Name,Age
Alice,30" = parse_lines ("Name,Age" :: [] ++ ["Alice,30"]).
Proof.
  assert (H1 : lines_of "Name,Age
Name,Age
Alice,30" = "Name,Age" :: [] ++ "Name,Age" :: ["Alice,30"]) by reflexivity.
  assert (H2 : fingerprint (split ","%char "Name,Age") = fingerprint (split ","%char "Name,Age"))
    by reflexivity.
  split; [exact H1|]. split; [exact H2|].
  exact (proj1 (parseCSV_skips_repeated_header _ _ _ _ _) H1 H2).
Defined.

(** C4: a data line with fewer cells than 70% of the header cells, or with
    only blank cells, gives no record: removing it leaves the output
    unchanged; the two scenario inputs give the empty output. *)
Theorem parseCSV_skips_short_or_blank (s first line : string) (pre post : list string) :
  (lines_of s = first :: pre ++ line :: post ->
   10 * length (split ","%char line) < 7 * length (split ","%char first) \/
   forallb (fun v => trim v =? "") (split ","%char line) = true ->
   parseCSV s = parse_lines (first :: pre ++ post)) /\
  parseCSV "Name,Age,Gender
Alice,30" = [] /\
  parseCSV "Name,Age
,
" = [].
Proof.
  split; [|split; reflexivity].
  intros Hl Hc. unfold parseCSV. rewrite Hl, !parse_lines_cons.
  apply loop_skip. unfold process_row, too_short, header_values.
  rewrite !length_map.
  destruct Hc as [Hc | Hc].
  - apply Nat.ltb_lt in Hc. now rewrite Hc.
  - rewrite Hc, orb_true_r. reflexivity.
Qed.

Lemma parseCSV_skips_short_or_blank_witness :
  lines_of "Name,Age,Gender
Alice,30
Bob,40,M" = "Name,Age,Gender" :: [] ++ "Alice,30" :: ["Bob,40,M"] /\
  parseCSV "Name,Age,Gender
Alice,30
Bob,40,M" = parse_lines ("Name,Age,Gender" :: [] ++ ["Bob,40,M"]).
Proof.
  assert (H1 : lines_of "Name,Age,Gender
Alice,30
Bob,40,M" = "Name,Age,Gender" :: [] ++ "Alice,30" :: ["Bob,40,M"]) by reflexivity.
  split; [exact H1|].
  refine (proj1 (parseCSV_skips_short_or_blank _ _ _ _ _) H1 _).
  left. simpl. lia.
Defined.

(** C5: fewer than two non-blank lines give the empty sequence; so does the
    empty input. *)
Theorem parseCSV_too_few_lines (s : string) :
  (length (lines_of s) < 2 -> parseCSV s = []) /\ parseCSV "" = [].
Proof.
  split; [|reflexivity].
  intros H. unfold parseCSV, parse_lines.
  replace (length (lines_of s) <=? 1)%nat with true; [reflexivity|].
  symmetry. apply Nat.leb_le. lia.
Qed.

Lemma parseCSV_too_few_lines_witness :
  length (lines_of "  
Name,Age
 ") < 2 /\ parseCSV "  
Name,Age
 " = [].
Proof.
  assert (H : length (lines_of "  
Name,Age
 ") < 2) by (vm_compute; lia).
  split; [exact H | exact (proj1 (parseCSV_too_few_lines _) H)].
Defined.

(** C6: the output has at most one record per non-blank line after the
    first (natural-number subtraction; as integers whenever there is a
    non-blank line). *)
Theorem parseCSV_length_bound (s : string) :
  length (parseCSV s) <= length (lines_of s) - 1 /\
  (1 <= length (lines_of s) -> length (parseCSV s) + 1 <= length (lines_of s)).
Proof.
  unfold parseCSV. destruct (lines_of s) as [|first rows]; simpl; [lia|].
  rewrite parse_lines_cons.
  pose proof (loop_length (header_values first) (fingerprint (split ","%char first)) rows [])
    as H. simpl in H. lia.
Qed.

Lemma parseCSV_length_bound_witness :
  1 <= length (lines_of "Name,Age
Alice,30") /\
  length (parseCSV "Name,Age
Alice,30") + 1 <= length (lines_of "Name,Age
Alice,30").
Proof.
  assert (H : 1 <= length (lines_of "Name,Age
Alice,30")) by (vm_compute; lia).
  split; [exact H | exact (proj2 (parseCSV_length_bound _) H)].
Defined.

(** C7 (code defect): the header cell [Constructor] canonicalizes to
    [constructor], which is not a key of the rename table, yet
    [headerMap[h] || h] finds [Object.prototype.constructor]; the records
    then carry the key ["function Object() { [native code] }"]. *)
Theorem constructor_header_not_passed_through :
  canon "Constructor" = "constructor" /\
  ~ In (canon "Constructor") headerMap_keys /\
  field_name "Constructor" = "function Object() { [native code] }" /\
  field_name "Constructor" <> canon "Constructor" /\
  parseCSV "Constructor,Name
x,y" = [[("function Object() { [native code] }", "x"); ("name", "y")]].
Proof.
  split; [reflexivity|]. split; [vm_compute; intuition discriminate|].
  split; [reflexivity|]. split; [vm_compute; discriminate | reflexivity].
Qed.

(** C8: ["Systolic BP"] and ["Diastolic BP"] become the field names
    ["systolic"] and ["diastolic"], and every record parsed under a header
    line holding such a cell has a value under that key. *)
Theorem systolic_diastolic_renamed (s first : string) (rows : list string) (r : record) :
  field_name "Systolic BP" = "systolic" /\
  field_name "Diastolic BP" = "diastolic" /\
  (lines_of s = first :: rows -> In r (parseCSV s) ->
   (In "Systolic BP" (split ","%char first) -> obj_get r "systolic" <> None) /\
   (In "Diastolic BP" (split ","%char first) -> obj_get r "diastolic" <> None)).
Proof.
  split; [reflexivity|]. split; [reflexivity|].
  intros Hl Hr. split; intros Hin.
  - exact (field_name_key_present first rows s "Systolic BP" r Hl Hin Hr).
  - exact (field_name_key_present first rows s "Diastolic BP" r Hl Hin Hr).
Qed.

Lemma systolic_diastolic_renamed_witness :
  let s := "Name,Systolic BP,Diastolic BP
Alice,120,80" in
  let r := [("name", "Alice"); ("systolic", "120"); ("diastolic", "80")] in
  lines_of s = "Name,Systolic BP,Diastolic BP" :: ["Alice,120,80"] /\
  In r (parseCSV s) /\
  obj_get r "systolic" <> None /\ obj_get r "diastolic" <> None.
Proof.
  intros s r.
  assert (Hl : lines_of s = "Name,Systolic BP,Diastolic BP" :: ["Alice,120,80"])
    by reflexivity.
  assert (Hr : In r (parseCSV s)) by (vm_compute; now left).
  destruct (proj2 (proj2 (systolic_diastolic_renamed s _ _ r)) Hl Hr) as [H1 H2].
  split; [exact Hl|]. split; [exact Hr|].
  split; [apply H1 | apply H2]; simpl; auto.
Defined.

(** C9: [filterData] keeps, in order, exactly the records having a value
    whose lowercase form contains the lowercase query. *)
Theorem filterData_spec (query : string) (data : list record) :
  exists p : record -> bool,
    (forall r, p r = true <->
               exists v, In v (object_values r) /\
                         exists pre suf, toLowerCase v = (pre ++ toLowerCase query ++ suf)%string) /\
    filterData query data = filter p data.
Proof.
  eexists. split; [|reflexivity].
  intros r. rewrite existsb_exists. split.
  - intros [v [Hv Hi]]. exists v. split; [exact Hv|]. now apply includes_spec.
  - intros [v [Hv Hi]]. exists v. split; [exact Hv|]. now apply includes_spec.
Qed.

(** C10: the empty query keeps every record that has at least one field. *)
Theorem filterData_empty_query (data : list record) :
  (forall r, In r data -> r <> []) -> filterData "" data = data.
Proof.
  unfold filterData. simpl.
  induction data as [|r data IH]; intros H; simpl; [reflexivity|].
  rewrite IH by (intros r' Hr'; apply H; now right).
  destruct r as [|[k v] r]; [exfalso; apply (H []); [now left | reflexivity]|].
  simpl. now rewrite includes_empty.
Qed.

Lemma filterData_empty_query_witness :
  filterData "" [[("name", "Alice")]; [("name", ""); ("age", "")]] =
  [[("name", "Alice")]; [("name", ""); ("age", "")]].
Proof.
  apply filterData_empty_query. intros r [<- | [<- | []]]; discriminate.
Defined.

(** ** Further properties of script.js *)

(** *** Polling and screens *)

Definition timers_ok (t : timers) : Prop :=
  next_id t <> 0 /\
  match dataIntervalId t with
  | Some i => i <> 0 /\ intervals t = [i]
  | None => intervals t = []
  end.

Definition one_screen (c : classes) : Prop :=
  c = mk_classes true false false \/ c = mk_classes false true false \/
  c = mk_classes false false true.

Definition page_ok (u : ui) : Prop :=
  timers_ok (tm u) /\ one_screen (screen_classes u) /\
  (dataIntervalId (tm u) = None <-> home_active (screen_classes u) = true).

Lemma startPolling_ok (t : timers) :
  timers_ok t -> timers_ok (startPolling t) /\ dataIntervalId (startPolling t) <> None.
Proof.
  destruct t as [[i|] l n]; unfold timers_ok, startPolling; simpl.
  - intros [Hn [Hi ->]]. destruct (i =? 0)%nat eqn:E; [apply Nat.eqb_eq in E; contradiction|].
    unfold clearInterval; simpl. rewrite Nat.eqb_refl. simpl.
    split; [split; [lia | split; [exact Hn | reflexivity]] | discriminate].
  - intros [Hn ->]. simpl. split; [split; [lia | split; [exact Hn | reflexivity]] | discriminate].
Qed.

Lemma stopPolling_ok (t : timers) :
  timers_ok t -> timers_ok (stopPolling t) /\ dataIntervalId (stopPolling t) = None.
Proof.
  destruct t as [[i|] l n]; unfold timers_ok, stopPolling; simpl.
  - intros [Hn [Hi ->]]. destruct (i =? 0)%nat eqn:E; [apply Nat.eqb_eq in E; contradiction|].
    unfold clearInterval; simpl. rewrite Nat.eqb_refl. simpl. now split.
  - intros [Hn ->]. now split.
Qed.

Lemma switchScreen_ok (s : screen) (u : ui) :
  timers_ok (tm u) -> page_ok (switchScreen s u).
Proof.
  intros H. destruct s; unfold switchScreen, page_ok, one_screen; simpl.
  - destruct (stopPolling_ok _ H) as [H1 H2]. rewrite H2.
    split; [exact H1|]. split; [now left | tauto].
  - destruct (startPolling_ok _ H) as [H1 H2].
    split; [exact H1|]. split; [right; now left|].
    split; [intros E; contradiction | discriminate].
  - destruct (startPolling_ok _ H) as [H1 H2].
    split; [exact H1|]. split; [right; now right|].
    split; [intros E; contradiction | discriminate].
Qed.

Lemma load_finish_ok (u : ui) (od op : fetch_outcome) :
  page_ok u -> page_ok (load_finish u od op).
Proof.
  intros Hu. unfold load_finish.
  destruct (_ =? "doctors"); [exact Hu|].
  destruct (_ =? "database"); [exact Hu|].
  destruct (_ =? "home"); [|exact Hu].
  apply switchScreen_ok. exact (proj1 Hu).
Qed.

Lemma ui_step_ok (u : ui) (e : ui_event) : page_ok u -> page_ok (ui_step u e).
Proof.
  intros Hu. pose proof Hu as [Ht _].
  destruct e; cbn [ui_step]; try (apply switchScreen_ok; exact Ht).
  - exact Hu.
  - exact Hu.
  - unfold load_start. destruct (_ && _); exact Hu.
  - now apply load_finish_ok.
Qed.

Lemma ui_run_ok (u : ui) (es : list ui_event) : page_ok u -> page_ok (ui_run u es).
Proof.
  unfold ui_run. revert u; induction es as [|e es IH]; intros u Hu; simpl; [exact Hu|].
  apply IH. now apply ui_step_ok.
Qed.

Lemma onload_ok (c : classes) (b1 b2 : body) (q1 q2 : string) (n : nat) :
  page_ok (onload (page_init c b1 b2 q1 q2 n)).
Proof.
  unfold onload.
  assert (H : page_ok (switchScreen Home (page_init c b1 b2 q1 q2 n))).
  { apply switchScreen_ok. unfold timers_ok; simpl. split; [lia | reflexivity]. }
  unfold load_start. destruct (_ && _); exact H.
Qed.

(** At every moment after [window.onload], whatever the user and the network
    do, at most one interval runs and it is the one [dataIntervalId] holds. *)
Theorem polling_single_interval (c : classes) (b1 b2 : body) (q1 q2 : string) (n : nat)
        (es : list ui_event) :
  let u := ui_run (onload (page_init c b1 b2 q1 q2 n)) es in
  length (intervals (tm u)) <= 1 /\
  (forall i, In i (intervals (tm u)) <-> dataIntervalId (tm u) = Some i).
Proof.
  intros u. destruct (ui_run_ok _ es (onload_ok c b1 b2 q1 q2 n)) as [[_ Ht] _].
  fold u in Ht. destruct (dataIntervalId (tm u)) as [j|].
  - destruct Ht as [_ ->]. simpl. split; [lia|].
    intros i. split; [intros [-> | []]; reflexivity | intros H; injection H as ->; now left].
  - rewrite Ht. simpl. split; [lia | split; [intros [] | discriminate]].
Qed.

(** After [window.onload] exactly one screen is active, and an interval runs
    exactly when that screen is the doctors or the database screen. *)
Theorem polling_iff_data_screen (c : classes) (b1 b2 : body) (q1 q2 : string) (n : nat)
        (es : list ui_event) :
  let u := ui_run (onload (page_init c b1 b2 q1 q2 n)) es in
  one_screen (screen_classes u) /\
  (intervals (tm u) <> [] <->
   doctors_active (screen_classes u) = true \/ database_active (screen_classes u) = true).
Proof.
  intros u. destruct (ui_run_ok _ es (onload_ok c b1 b2 q1 q2 n)) as [[_ Ht] [Hc Hp]].
  fold u in Ht, Hc, Hp. split; [exact Hc|].
  destruct (dataIntervalId (tm u)) as [j|].
  - destruct Ht as [_ Ht]. rewrite Ht.
    assert (Hh : home_active (screen_classes u) = false)
      by (destruct (home_active _); [discriminate (proj2 Hp eq_refl) | reflexivity]).
    split; [intros _ | intros _; discriminate].
    destruct Hc as [Hc | [Hc | Hc]]; rewrite Hc in *; simpl in *; auto; discriminate.
  - rewrite Ht. assert (Hh : home_active (screen_classes u) = true) by (now apply Hp).
    split; [intros H; now contradiction H|].
    destruct Hc as [Hc | [Hc | Hc]]; rewrite Hc in *; simpl in *;
      intros [H | H]; discriminate.
Qed.

(** A load that finishes while the doctors or the database screen is shown
    stores the new datasets but leaves both tables as they were: the active
    screen's id minus [-screen] is [doctors-profile] or [database-access],
    neither ['doctors'] nor ['database']. *)
Theorem load_finish_no_redraw_on_data_screen (u : ui) (od op : fetch_outcome) :
  screen_classes u = mk_classes false true false \/
  screen_classes u = mk_classes false false true ->
  doctorTableBody (load_finish u od op) = doctorTableBody u /\
  databaseTableBody (load_finish u od op) = databaseTableBody u /\
  tm (load_finish u od op) = tm u /\
  data (load_finish u od op) = snd (fetchAndLoadData (data u) od op).
Proof.
  intros [Hc | Hc]; unfold load_finish; cbn [screen_classes set_data]; rewrite Hc;
    simpl; repeat split.
Qed.

Lemma load_finish_no_redraw_on_data_screen_witness :
  let u := mk_ui (mk_state [] []) (mk_classes false true false)
                 (Message 4 "Loading doctor data...") (Message 13 "Loading patient data...")
                 "" "" (mk_timers (Some 1) [1] 2) in
  let od := Response true 200 (Some "Name,Contact
Ann,555") in
  doctorTableBody (load_finish u od NetworkError) = Message 4 "Loading doctor data..." /\
  doctorsData (data (load_finish u od NetworkError)) = [[("name", "Ann"); ("contact", "555")]].
Proof.
  intros u od.
  destruct (load_finish_no_redraw_on_data_screen u od NetworkError (or_introl eq_refl))
    as [H1 [_ [_ H4]]].
  split; [exact H1 | rewrite H4; reflexivity].
Defined.

(** *** Strings *)

Lemma str_app_nil_r (a : string) : (a ++ "")%string = a.
Proof. induction a as [|c a IH]; simpl; [reflexivity | now rewrite IH]. Qed.

Lemma str_app_assoc (a b c : string) : (a ++ (b ++ c))%string = ((a ++ b) ++ c)%string.
Proof. induction a as [|x a IH]; simpl; [reflexivity | now rewrite IH]. Qed.

Lemma string_rev_app (a b : string) :
  string_rev (a ++ b) = (string_rev b ++ string_rev a)%string.
Proof.
  induction a as [|c a IH]; simpl.
  - now rewrite str_app_nil_r.
  - rewrite IH. apply eq_sym, str_app_assoc.
Qed.

Lemma string_rev_involutive (a : string) : string_rev (string_rev a) = a.
Proof.
  induction a as [|c a IH]; simpl; [reflexivity|].
  rewrite string_rev_app. simpl. now rewrite IH.
Qed.

Lemma trim_start_prefix (s : string) : exists w, s = (w ++ trim_start s)%string.
Proof.
  induction s as [|c s [w IH]]; simpl; [now exists ""|].
  destruct (is_ws c).
  - exists (String c w). simpl. now rewrite <- IH.
  - now exists "".
Qed.

Lemma trim_start_head (s c t : string) (a : ascii) :
  trim_start s = String a t -> is_ws a = false.
Proof.
  induction s as [|x s IH]; simpl; [discriminate|].
  destruct (is_ws x) eqn:E; [exact IH|]. intros H. injection H as -> _. exact E.
Qed.

Lemma trim_start_idem (s : string) : trim_start (trim_start s) = trim_start s.
Proof.
  induction s as [|c s IH]; simpl; [reflexivity|].
  destruct (is_ws c) eqn:E; [exact IH|]. simpl. now rewrite E.
Qed.

(** [trim] is idempotent *)
Lemma trim_idem (s : string) : trim (trim s) = trim s.
Proof.
  unfold trim, trim_end.
  set (a := trim_start s). set (b := trim_start (string_rev a)).
  assert (Hb : trim_start (string_rev b) = string_rev b).
  { destruct (trim_start_prefix (string_rev a)) as [w Hw]. fold b in Hw.
    assert (Ha : a = (string_rev b ++ string_rev w)%string).
    { rewrite <- (string_rev_involutive a), Hw, string_rev_app. reflexivity. }
    destruct (string_rev b) as [|c t] eqn:Erb; [reflexivity|].
    simpl. replace (is_ws c) with false; [reflexivity|].
    symmetry. apply (trim_start_head s "" (t ++ string_rev w)).
    fold a. rewrite Ha. reflexivity. }
  rewrite Hb, string_rev_involutive. unfold b. now rewrite trim_start_idem.
Qed.

(** *** Records built by [parseCSV] *)

Lemma obj_get_In (o : record) (k : string) : obj_get o k <> None <-> In k (map fst o).
Proof.
  induction o as [|[k' v'] o IH]; simpl; [tauto|].
  destruct (String.eqb_spec k' k) as [-> | Hne].
  - split; [now left | discriminate].
  - rewrite IH. split; [now right | intros [H | H]; [contradiction | exact H]].
Qed.

Lemma obj_set_keys (o : record) (k v k' : string) :
  In k' (map fst (obj_set o k v)) <-> k' = k \/ In k' (map fst o).
Proof.
  induction o as [|[k0 v0] o IH]; simpl; [intuition congruence|].
  destruct (String.eqb_spec k0 k) as [-> | Hne]; simpl; [intuition congruence|].
  rewrite IH. tauto.
Qed.

Lemma obj_set_nodup (o : record) (k v : string) :
  NoDup (map fst o) -> NoDup (map fst (obj_set o k v)).
Proof.
  induction o as [|[k0 v0] o IH]; simpl; intros H.
  - constructor; [intros [] | constructor].
  - inversion H as [|? ? Hn Hd]; subst.
    destruct (String.eqb_spec k0 k) as [-> | Hne]; simpl; [now constructor|].
    constructor; [|now apply IH].
    rewrite obj_set_keys. intros [E | E]; [congruence | contradiction].
Qed.

Lemma obj_set_values (o : record) (k v v' : string) :
  In v' (object_values (obj_set o k v)) -> v' = v \/ In v' (object_values o).
Proof.
  unfold object_values.
  induction o as [|[k0 v0] o IH]; simpl; [intuition congruence|].
  destruct (String.eqb k0 k); simpl; [intuition congruence|].
  intros [H | H]; [tauto|]. destruct (IH H); tauto.
Qed.

Lemma fill_keys (hs : list value) (i : nat) (values : list string) (obj : record)
      (e : bool) (k : string) :
  In k (map fst (fst (fill hs i values obj e))) <->
  In k (map fst obj) \/ In k (map to_key hs).
Proof.
  revert i obj e; induction hs as [|h hs IH]; intros i obj e; simpl; [tauto|].
  rewrite IH, obj_set_keys. split; intros H; [|]; intuition congruence.
Qed.

Lemma fill_nodup (hs : list value) (i : nat) (values : list string) (obj : record) (e : bool) :
  NoDup (map fst obj) -> NoDup (map fst (fst (fill hs i values obj e))).
Proof.
  revert i obj e; induction hs as [|h hs IH]; intros i obj e H; simpl; [exact H|].
  apply IH, obj_set_nodup, H.
Qed.

Lemma fill_values (hs : list value) (i : nat) (values : list string) (obj : record)
      (e : bool) (v : string) :
  In v (object_values (fst (fill hs i values obj e))) ->
  In v (object_values obj) \/ exists j, v = cell values j.
Proof.
  revert i obj e; induction hs as [|h hs IH]; intros i obj e H; simpl in *; [now left|].
  destruct (IH _ _ _ H) as [H1 | H1]; [|now right].
  destruct (obj_set_values _ _ _ _ H1) as [-> | H2]; [right; now exists i | now left].
Qed.

Lemma fill_flag (hs : list value) (i : nat) (values : list string) (obj : record) (e : bool) :
  snd (fill hs i values obj e) = false ->
  e = false \/ exists j, i <= j < i + length hs /\ cell values j <> "".
Proof.
  revert i obj e; induction hs as [|h hs IH]; intros i obj e H; simpl in *; [now left|].
  destruct (IH _ _ _ H) as [H1 | [j [Hj Hc]]].
  - destruct (String.eqb_spec (cell values i) "") as [E | E]; simpl in H1.
    + now left.
    + right. exists i. split; [lia | exact E].
  - right. exists j. split; [lia | exact Hc].
Qed.

Lemma cell_trimmed (values : list string) (j : nat) : trim (cell values j) = cell values j.
Proof.
  unfold cell. destruct (nth_error values j) as [v|]; [|reflexivity].
  destruct (v =? ""); [reflexivity | apply trim_idem].
Qed.

Lemma last_index_from_notin (k : string) (ks : list string) (i : nat) :
  ~ In k ks -> last_index_from k ks i = None.
Proof.
  revert i; induction ks as [|x ks IH]; intros i H; simpl; [reflexivity|].
  rewrite IH by (intros H'; apply H; now right).
  destruct (String.eqb_spec x k); [subst; exfalso; apply H; now left | reflexivity].
Qed.

Lemma last_index_from_nodup (ks : list string) (i j : nat) (k : string) :
  NoDup ks -> nth_error ks j = Some k -> last_index_from k ks i = Some (i + j).
Proof.
  revert i j; induction ks as [|x ks IH]; intros i j Hd Hj; [now destruct j|].
  inversion Hd as [|? ? Hn Hd']; subst. simpl.
  destruct j as [|j]; simpl in Hj.
  - injection Hj as ->. rewrite last_index_from_notin by exact Hn.
    rewrite String.eqb_refl. f_equal. lia.
  - rewrite (IH (S i) j Hd' Hj). f_equal. lia.
Qed.

Lemma process_row_fill (nh : list value) (hfp line : string) (r : record) :
  process_row nh hfp line = Some r ->
  r = fst (fill nh 0 (split ","%char line) [] true) /\
  snd (fill nh 0 (split ","%char line) [] true) = false.
Proof.
  unfold process_row. intros H.
  destruct (_ || _); [discriminate|].
  destruct (fingerprint _ =? hfp); [discriminate|].
  destruct (fill nh 0 (split ","%char line) [] true) as [obj e].
  destruct e; [discriminate|]. injection H as <-. now split.
Qed.

Lemma parseCSV_In_row (s : string) (r : record) :
  In r (parseCSV s) ->
  exists first rows line,
    lines_of s = first :: rows /\ In line rows /\
    process_row (header_values first) (fingerprint (split ","%char first)) line = Some r.
Proof.
  unfold parseCSV. destruct (lines_of s) as [|first rows]; [intros []|].
  rewrite parse_lines_cons. intros Hin.
  destruct (loop_In _ _ _ _ _ Hin) as [[] | [line [H1 H2]]].
  now exists first, rows, line.
Qed.

(** Every value stored in a record of [parseCSV] is already trimmed. *)
Theorem parseCSV_values_trimmed (s : string) (r : record) (v : string) :
  In r (parseCSV s) -> In v (object_values r) -> trim v = v.
Proof.
  intros Hr Hv.
  destruct (parseCSV_In_row s r Hr) as [first [rows [line [_ [_ Hp]]]]].
  destruct (process_row_fill _ _ _ _ Hp) as [-> _].
  destruct (fill_values _ _ _ _ _ _ Hv) as [[] | [j ->]].
  apply cell_trimmed.
Qed.

Lemma parseCSV_values_trimmed_witness :
  In [("name", "Alice"); ("age", "30")] (parseCSV " Name , Age
  Alice ,	30  ") /\
  In "Alice" (object_values [("name", "Alice"); ("age", "30")]) /\
  trim "Alice" = "Alice".
Proof.
  assert (H1 : In [("name", "Alice"); ("age", "30")] (parseCSV " Name , Age
  Alice ,	30  ")) by (vm_compute; now left).
  assert (H2 : In "Alice" (object_values [("name", "Alice"); ("age", "30")]))
    by (simpl; now left).
  split; [exact H1 | split; [exact H2 | exact (parseCSV_values_trimmed _ _ _ H1 H2)]].
Defined.

(** The keys of a record of [parseCSV] are pairwise distinct and are exactly
    the field names of the header line. *)
Theorem parseCSV_keys_exact (s : string) (r : record) :
  In r (parseCSV s) ->
  exists first rows,
    lines_of s = first :: rows /\ NoDup (map fst r) /\
    (forall k, In k (map fst r) <-> In k (header_keys first)).
Proof.
  intros Hr.
  destruct (parseCSV_In_row s r Hr) as [first [rows [line [Hl [_ Hp]]]]].
  exists first, rows. split; [exact Hl|].
  destruct (process_row_fill _ _ _ _ Hp) as [-> _].
  split; [apply fill_nodup; constructor|].
  intros k. rewrite fill_keys, header_keys_values. simpl. tauto.
Qed.

Lemma parseCSV_keys_exact_witness :
  In [("name", "Alice"); ("age", "30")] (parseCSV "Name,Age
Alice,30,extra") /\
  exists first rows,
    lines_of "Name,Age
Alice,30,extra" = first :: rows /\ NoDup (map fst [("name", "Alice"); ("age", "30")]) /\
    (forall k, In k (map fst [("name", "Alice"); ("age", "30")]) <-> In k (header_keys first)).
Proof.
  assert (H : In [("name", "Alice"); ("age", "30")] (parseCSV "Name,Age
Alice,30,extra")) by (vm_compute; now left).
  split; [exact H | exact (parseCSV_keys_exact _ _ H)].
Defined.

(** When the header field names are pairwise distinct, every record of
    [parseCSV] has a non-empty value. *)
Theorem parseCSV_some_nonempty_value (s first : string) (rows : list string) (r : record) :
  lines_of s = first :: rows -> NoDup (header_keys first) -> In r (parseCSV s) ->
  exists k v, obj_get r k = Some v /\ v <> "".
Proof.
  intros Hl Hd Hr.
  destruct (parseCSV_In_row s r Hr) as [first' [rows' [line [Hl' [_ Hp]]]]].
  rewrite Hl in Hl'. injection Hl' as <- <-.
  destruct (process_row_fill _ _ _ _ Hp) as [_ Hf].
  destruct (fill_flag _ _ _ _ _ Hf) as [E | [j [Hj Hc]]]; [discriminate|].
  assert (Hlen : j < length (header_keys first))
    by (rewrite header_keys_values, length_map; lia).
  destruct (nth_error (header_keys first) j) as [k|] eqn:Ek;
    [|apply nth_error_None in Ek; lia].
  exists k, (cell (split ","%char line) j). split; [|exact Hc].
  rewrite (process_row_fields _ _ _ _ Hp k), <- header_keys_values.
  unfold last_index. now rewrite (last_index_from_nodup _ 0 j k Hd Ek).
Qed.

Lemma parseCSV_some_nonempty_value_witness :
  lines_of "Name,Age
,30" = "Name,Age" :: [",30"] /\ NoDup (header_keys "Name,Age") /\
  In [("name", ""); ("age", "30")] (parseCSV "Name,Age
,30") /\
  exists k v, obj_get [("name", ""); ("age", "30")] k = Some v /\ v <> "".
Proof.
  assert (H1 : lines_of "Name,Age
,30" = "Name,Age" :: [",30"]) by reflexivity.
  assert (H2 : NoDup (header_keys "Name,Age")).
  { vm_compute. constructor; [intros [H | []]; discriminate | constructor; [intros [] | constructor]]. }
  assert (H3 : In [("name", ""); ("age", "30")] (parseCSV "Name,Age
,30")) by (vm_compute; now left).
  split; [exact H1 | split; [exact H2 | split; [exact H3|]]].
  exact (parseCSV_some_nonempty_value _ _ _ _ H1 H2 H3).
Defined.

(** *** Search *)

Lemma lower_char_idem (c : ascii) : lower_char (lower_char c) = lower_char c.
Proof. destruct c as [[] [] [] [] [] [] [] []]; reflexivity. Qed.

Lemma toLowerCase_idem (s : string) : toLowerCase (toLowerCase s) = toLowerCase s.
Proof. induction s as [|c s IH]; simpl; [reflexivity | now rewrite lower_char_idem, IH]. Qed.


(** Lowercasing the query first does not change the result of [filterData]. *)
Theorem filterData_query_case_insensitive (query : string) (d : list record) :
  filterData (toLowerCase query) d = filterData query d.
Proof. unfold filterData. now rewrite toLowerCase_idem. Qed.



Lemma split_nonempty (c : ascii) (s : string) : split c s <> [].
Proof.
  induction s as [|x s IH]; simpl; [discriminate|].
  destruct (Ascii.eqb x c); [discriminate|]. destruct (split c s); discriminate.
Qed.

Lemma parseCSV_record_nonempty (s : string) (r : record) : In r (parseCSV s) -> r <> [].
Proof.
  intros Hr.
  destruct (parseCSV_In_row s r Hr) as [first [rows [line [_ [_ Hp]]]]].
  destruct (process_row_fill _ _ _ _ Hp) as [-> _].
  unfold header_values.
  destruct (split ","%char first) as [|h hs] eqn:E; [now apply split_nonempty in E|].
  intros H0. set (hv := map normalize_header (map canon (h :: hs))) in H0.
  assert (Hk : In (to_key (normalize_header (canon h))) (map fst (fst (fill hv 0 (split ","%char line) [] true)))).
  { apply fill_keys. right. simpl. now left. }
  rewrite H0 in Hk. destruct Hk.
Qed.

Lemma filterData_empty_keeps (d : list record) :
  (forall r, In r d -> r <> []) -> filterData "" d = d.
Proof.
  unfold filterData. simpl.
  induction d as [|r d IH]; intros H; simpl; [reflexivity|].
  rewrite IH by (intros r' Hr'; apply H; now right).
  destruct r as [|[k v] r]; [exfalso; apply (H []); [now left | reflexivity]|].
  simpl. now rewrite includes_empty.
Qed.

Definition data_ok (st : app_state) : Prop :=
  forall r, In r (doctorsData st) \/ In r (databaseData st) -> r <> [].

Lemma data_switchScreen (s : screen) (u : ui) : data (switchScreen s u) = data u.
Proof. destruct s; reflexivity. Qed.

Lemma data_load_finish (u : ui) (od op : fetch_outcome) :
  data (load_finish u od op) = snd (fetchAndLoadData (data u) od op).
Proof.
  unfold load_finish.
  destruct (_ =? "doctors"); [reflexivity|].
  destruct (_ =? "database"); [reflexivity|].
  destruct (_ =? "home"); [apply data_switchScreen | reflexivity].
Qed.

Lemma fetchData_ok (o : fetch_outcome) (r : record) : In r (snd (fetchData o)) -> r <> [].
Proof.
  destruct o as [|ok st body]; simpl; [intros []|].
  destruct ok; simpl; [|intros []].
  destruct body as [t|]; simpl; [apply parseCSV_record_nonempty | intros []].
Qed.

Lemma ui_step_data_ok (u : ui) (e : ui_event) : data_ok (data u) -> data_ok (data (ui_step u e)).
Proof.
  intros H. destruct e; cbn [ui_step]; try (rewrite data_switchScreen; exact H).
  - exact H.
  - exact H.
  - unfold load_start. destruct (_ && _); exact H.
  - rewrite data_load_finish. unfold fetchAndLoadData.
    destruct (fetchData od) as [ed rd] eqn:Ed. destruct (fetchData op) as [ep rp] eqn:Ep.
    intros r [Hr | Hr]; simpl in Hr.
    + apply (fetchData_ok od). now rewrite Ed.
    + apply (fetchData_ok op). now rewrite Ep.
Qed.

Lemma ui_run_data_ok (c : classes) (b1 b2 : body) (q1 q2 : string) (n : nat)
      (es : list ui_event) :
  data_ok (data (ui_run (onload (page_init c b1 b2 q1 q2 n)) es)).
Proof.
  unfold ui_run.
  assert (H0 : data_ok (data (onload (page_init c b1 b2 q1 q2 n)))).
  { unfold onload, load_start. intros r.
    destruct (_ && _); simpl; intros [[] | []]. }
  revert H0. generalize (onload (page_init c b1 b2 q1 q2 n)).
  induction es as [|e es IH]; intros u Hu; simpl; [exact Hu|].
  apply IH, ui_step_data_ok, Hu.
Qed.

(** Whatever happened since [window.onload], a search box emptied (or left
    with white space only) shows the full loaded dataset, as rendered on
    entering the screen. *)
Theorem blank_search_shows_all (c : classes) (b1 b2 : body) (q1 q2 : string) (n : nat)
        (es : list ui_event) (v : string) :
  trim v = "" ->
  let u := ui_run (onload (page_init c b1 b2 q1 q2 n)) es in
  doctorTableBody (handleDoctorSearch u v) = renderDoctorsTable (doctorsData (data u)) /\
  databaseTableBody (handleDatabaseSearch u v) = renderDatabaseTable (databaseData (data u)).
Proof.
  intros Hv u. pose proof (ui_run_data_ok c b1 b2 q1 q2 n es) as H. fold u in H.
  unfold handleDoctorSearch, handleDatabaseSearch. simpl. rewrite Hv.
  rewrite !filterData_empty_keeps; [split; reflexivity | |];
    intros r Hr; apply H; [now right | now left].
Qed.

Lemma blank_search_shows_all_witness :
  trim "   " = "" /\
  let u := ui_run (onload (page_init (mk_classes true false false) (Rows []) (Rows []) "" "" 0))
                  [ClickDoctorsProfile;
                   LoadFinish (Response true 200 (Some "Name,Contact
Ann,555")) NetworkError;
                   DoctorSearchInput "zzz"] in
  doctorTableBody (handleDoctorSearch u "   ") = renderDoctorsTable (doctorsData (data u)) /\
  databaseTableBody (handleDatabaseSearch u "   ") = renderDatabaseTable (databaseData (data u)).
Proof.
  assert (H : trim "   " = "") by reflexivity.
  split; [exact H | exact (blank_search_shows_all _ _ _ _ _ _ _ "   " H)].
Defined.

(** *** CRLF input *)

Definition CR : string := String "013"%char EmptyString.

(** a line or cell read from CRLF input: the same, or with a [\r] at its end *)
Definition cr_rel (a b : string) : Prop := a = b \/ a = (b ++ CR)%string.

Lemma cr_rel_cons (x : ascii) (a b : string) : cr_rel a b -> cr_rel (String x a) (String x b).
Proof. intros [-> | ->]; [now left | now right]. Qed.

Lemma cr_rel_refl_list (l : list string) : Forall2 cr_rel l l.
Proof. induction l; constructor; [now left | assumption]. Qed.

Lemma trim_start_app (a b : string) :
  trim_start (a ++ b) =
  match trim_start a with EmptyString => trim_start b | t => (t ++ b)%string end.
Proof.
  induction a as [|c a IH]; simpl; [reflexivity|].
  destruct (is_ws c); [exact IH | reflexivity].
Qed.

Lemma trim_cr (b : string) : trim (b ++ CR) = trim b.
Proof.
  unfold trim. rewrite trim_start_app.
  destruct (trim_start b) as [|x t] eqn:E; [reflexivity|].
  unfold trim_end. rewrite string_rev_app. reflexivity.
Qed.

Lemma trim_cr_rel (a b : string) : cr_rel a b -> trim a = trim b.
Proof. intros [-> | ->]; [reflexivity | apply trim_cr]. Qed.

Lemma canon_cr_rel (a b : string) : cr_rel a b -> canon a = canon b.
Proof. intros H. unfold canon. now rewrite (trim_cr_rel _ _ H). Qed.

Lemma Forall2_map_eq {A B : Type} (R : A -> A -> Prop) (f : A -> B) (l l' : list A) :
  (forall a b, R a b -> f a = f b) -> Forall2 R l' l -> map f l' = map f l.
Proof. intros Hf H. induction H; simpl; [reflexivity | f_equal; auto]. Qed.

Lemma cell_cr_rel (v' v : list string) (j : nat) :
  Forall2 cr_rel v' v -> cell v' j = cell v j.
Proof.
  intros H. revert j. unfold cell.
  induction H as [|a b v' v Hab H IH]; intros j; [now destruct j|].
  destruct j as [|j]; simpl; [|apply IH].
  destruct Hab as [-> | ->]; [reflexivity|].
  rewrite trim_cr. destruct (String.eqb_spec (b ++ CR) "") as [E | E].
  - destruct b; discriminate.
  - destruct (String.eqb_spec b "") as [-> | _]; reflexivity.
Qed.

Lemma fill_cell_ext (hs : list value) (i : nat) (v' v : list string) (obj : record) (e : bool) :
  (forall j, cell v' j = cell v j) -> fill hs i v' obj e = fill hs i v obj e.
Proof.
  intros H. revert i obj e; induction hs as [|h hs IH]; intros i obj e; simpl; [reflexivity|].
  rewrite H. apply IH.
Qed.

Lemma split_cr_rel (c : ascii) (a b : string) :
  c <> "013"%char -> cr_rel a b -> Forall2 cr_rel (split c a) (split c b).
Proof.
  intros Hc [-> | ->]; [apply cr_rel_refl_list|].
  induction b as [|x b IH].
  - change ((EmptyString ++ CR)%string) with (String "013"%char EmptyString). cbn [split].
    rewrite (proj2 (Ascii.eqb_neq "013"%char c)) by congruence.
    constructor; [now right | constructor].
  - simpl. destruct (Ascii.eqb x c); [constructor; [now left | exact IH]|].
    pose proof (split_nonempty c b) as Hn.
    destruct (split c b) as [|q qs]; [contradiction|].
    destruct (split c (b ++ CR)) as [|p ps]; [inversion IH|].
    inversion IH as [|? ? ? ? Hpq Hr]; subst.
    constructor; [now apply cr_rel_cons | exact Hr].
Qed.

Lemma process_row_cr_rel (nh : list value) (hfp l' l : string) :
  cr_rel l' l -> process_row nh hfp l' = process_row nh hfp l.
Proof.
  intros H. pose proof (split_cr_rel ","%char _ _ ltac:(discriminate) H) as Hs.
  unfold process_row, too_short, fingerprint.
  rewrite (Forall2_length Hs).
  assert (Hb : forallb (fun v => trim v =? "") (split ","%char l') =
               forallb (fun v => trim v =? "") (split ","%char l)).
  { clear H. induction Hs as [|a b ? ? Hab ? IH]; simpl; [reflexivity|].
    now rewrite (trim_cr_rel _ _ Hab), IH. }
  rewrite Hb, (Forall2_map_eq _ canon _ _ canon_cr_rel Hs).
  rewrite (fill_cell_ext nh 0 _ _ [] true (fun j => cell_cr_rel _ _ j Hs)).
  reflexivity.
Qed.

Lemma loop_cr_rel (nh : list value) (hfp : string) (rows' rows : list string) (d : list record) :
  Forall2 cr_rel rows' rows -> loop nh hfp rows' d = loop nh hfp rows d.
Proof.
  intros H. revert d. induction H as [|a b ? ? Hab ? IH]; intros d; simpl; [reflexivity|].
  rewrite (process_row_cr_rel _ _ _ _ Hab). apply IH.
Qed.

Lemma parse_lines_cr_rel (ls' ls : list string) :
  Forall2 cr_rel ls' ls -> parse_lines ls' = parse_lines ls.
Proof.
  intros H. destruct H as [|a b rows' rows Hab Hr]; [reflexivity|].
  rewrite !parse_lines_cons, (loop_cr_rel _ _ _ _ [] Hr).
  pose proof (split_cr_rel ","%char _ _ ltac:(discriminate) Hab) as Hs.
  unfold header_values, fingerprint.
  now rewrite (Forall2_map_eq _ canon _ _ canon_cr_rel Hs).
Qed.

Lemma split_lf_crlf (s : string) : Forall2 cr_rel (split "010"%char (crlf s)) (split "010"%char s).
Proof.
  induction s as [|c s IH]; simpl; [constructor; [now left | constructor]|].
  destruct (Ascii.eqb_spec c "010"%char) as [-> | Hc]; simpl.
  - constructor; [now right | exact IH].
  - rewrite (proj2 (Ascii.eqb_neq c "010"%char) Hc).
    pose proof (split_nonempty "010"%char s) as Hn.
    destruct (split "010"%char s) as [|q qs]; [contradiction|].
    destruct (split "010"%char (crlf s)) as [|p ps]; [inversion IH|].
    inversion IH as [|? ? ? ? Hpq Hr]; subst.
    constructor; [now apply cr_rel_cons | exact Hr].
Qed.

Lemma filter_nonblank_cr_rel (l' l : list string) :
  Forall2 cr_rel l' l -> Forall2 cr_rel (filter nonblank l') (filter nonblank l).
Proof.
  intros H. induction H as [|a b ? ? Hab ? IH]; simpl; [constructor|].
  unfold nonblank at 1. rewrite (trim_cr_rel _ _ Hab). fold (nonblank b).
  destruct (nonblank b); [constructor|]; assumption.
Qed.

(** CRLF line ends parse exactly like LF line ends. *)
Theorem parseCSV_crlf (s : string) : parseCSV (crlf s) = parseCSV s.
Proof.
  unfold parseCSV, lines_of. apply parse_lines_cr_rel, filter_nonblank_cr_rel, split_lf_crlf.
Qed.
